(** Shallow embedding of system/types/bt_transport.h: the transport
    constants and the logging helper [bt_transport_text]. *)

From Stdlib Require Import Strings.String Strings.Ascii Strings.Byte.
From Stdlib Require Import PeanoNat NArith List Bool Lia.
Import ListNotations.
Open Scope string_scope.

(** * Data model *)

(** [typedef uint8_t tBT_TRANSPORT;] *)
Definition tBT_TRANSPORT := Byte.byte.

(** [#define BT_TRANSPORT_AUTO 0] and its siblings. *)
Definition BT_TRANSPORT_AUTO : N := 0.
Definition BT_TRANSPORT_BR_EDR : N := 1.
Definition BT_TRANSPORT_LE : N := 2.

(** The macros the header defines, as (spelling, value) pairs. *)
Definition transport_macros : list (string * N) :=
  [ ("BT_TRANSPORT_AUTO", BT_TRANSPORT_AUTO);
    ("BT_TRANSPORT_BR_EDR", BT_TRANSPORT_BR_EDR);
    ("BT_TRANSPORT_LE", BT_TRANSPORT_LE) ].

(** * std::to_string on an (integer-promoted) uint8_t *)

Definition digit_char (d : N) : ascii := ascii_of_N (48 + d).

(** Emits the least significant digit first, prepending to [acc], and stops
    once the quotient is zero; [fuel] bounds the number of digits. *)
Fixpoint to_string_aux (fuel : nat) (n : N) (acc : string) : string :=
  match fuel with
  | O => acc
  | S fuel' =>
      let acc' := String (digit_char (N.modulo n 10)) acc in
      match N.div n 10 with
      | N0 => acc'
      | q => to_string_aux fuel' q acc'
      end
  end.

Definition to_string (n : N) : string :=
  to_string_aux (S (N.size_nat n)) n "".

(** * bt_transport_text *)

(** [CASE_RETURN_TEXT(code)] expands to [case code: return #code]: a case
    label paired with the stringified macro name. *)
Definition CASE_RETURN_TEXT (code : string * N) : N * string :=
  (snd code, fst code).

Definition switch_cases : list (N * string) :=
  [ CASE_RETURN_TEXT ("BT_TRANSPORT_AUTO", BT_TRANSPORT_AUTO);
    CASE_RETURN_TEXT ("BT_TRANSPORT_BR_EDR", BT_TRANSPORT_BR_EDR);
    CASE_RETURN_TEXT ("BT_TRANSPORT_LE", BT_TRANSPORT_LE) ].

(** The C++ switch: the first case whose label equals the scrutinee. *)
Fixpoint switch_lookup (v : N) (cs : list (N * string)) : option string :=
  match cs with
  | [] => None
  | (label, txt) :: rest => if N.eqb v label then Some txt else switch_lookup v rest
  end.

Definition bt_transport_text (transport : tBT_TRANSPORT) : string :=
  match switch_lookup (Byte.to_N transport) switch_cases with
  | Some txt => txt
  | None => "UNKNOWN[" ++ to_string (Byte.to_N transport) ++ "]"
  end.

(** A call through the [const tBT_TRANSPORT&] parameter: the caller's memory
    is a map from addresses to bytes; the body only reads the referenced
    byte and returns the string together with the memory it leaves. *)
Definition memory := N -> Byte.byte.

Definition call_bt_transport_text (addr : N) (m : memory) : string * memory :=
  (bt_transport_text (m addr), m).

(** * Auxiliary decidable predicates used to state the claims *)

Definition is_recognized (n : N) : bool :=
  N.eqb n BT_TRANSPORT_AUTO || N.eqb n BT_TRANSPORT_BR_EDR || N.eqb n BT_TRANSPORT_LE.

Definition is_digit (c : ascii) : bool :=
  let k := N_of_ascii c in N.leb 48 k && N.ltb k 58.

Fixpoint all_digits (s : string) : bool :=
  match s with
  | EmptyString => true
  | String c r => is_digit c && all_digits r
  end.

(** Value of a digit string, most significant digit first. *)
Fixpoint decimal_value_aux (s : string) (acc : N) : N :=
  match s with
  | EmptyString => acc
  | String c r => decimal_value_aux r (acc * 10 + (N_of_ascii c - 48))
  end.

Definition decimal_value (s : string) : N := decimal_value_aux s 0.

(** A canonical decimal numeral for [n]: non-empty, digits only, no leading
    zero unless it is the numeral 0, and of value [n]. *)
Definition is_decimal_of (s : string) (n : N) : bool :=
  match s with
  | EmptyString => false
  | String c r =>
      all_digits s && N.eqb (decimal_value s) n
      && (negb (Ascii.eqb c "0"%char) || String.eqb r "")
  end.

(** Inverse of [bt_transport_text] on its image. *)
Fixpoint parse_digits_bracket (s : string) (acc : N) : option N :=
  match s with
  | EmptyString => None
  | String c r =>
      if Ascii.eqb c "]"%char then
        (if String.eqb r "" then Some acc else None)
      else if is_digit c then parse_digits_bracket r (acc * 10 + (N_of_ascii c - 48))
      else None
  end.

Definition parse_text (s : string) : option N :=
  if String.eqb s "BT_TRANSPORT_AUTO" then Some BT_TRANSPORT_AUTO
  else if String.eqb s "BT_TRANSPORT_BR_EDR" then Some BT_TRANSPORT_BR_EDR
  else if String.eqb s "BT_TRANSPORT_LE" then Some BT_TRANSPORT_LE
  else if String.prefix "UNKNOWN[" s then
         parse_digits_bracket (substring 8 (String.length s - 8) s) 0
  else None.

Example to_string_255 : to_string 255 = "255". Proof. reflexivity. Qed.
Example to_string_0 : to_string 0 = "0". Proof. reflexivity. Qed.
Example text_7 : bt_transport_text (Byte.x07) = "UNKNOWN[7]". Proof. reflexivity. Qed.

(** * Per-code facts, checked over the whole uint8_t domain *)

Ltac by_all_bytes t := destruct t; vm_compute; reflexivity.

Lemma text_parse_inverse (t : tBT_TRANSPORT) :
  parse_text (bt_transport_text t) = Some (Byte.to_N t).
Proof. by_all_bytes t. Qed.

Lemma to_string_is_decimal (t : tBT_TRANSPORT) :
  is_decimal_of (to_string (Byte.to_N t)) (Byte.to_N t) = true.
Proof. by_all_bytes t. Qed.

Lemma text_prefix_unknown (t : tBT_TRANSPORT) :
  String.prefix "UNKNOWN[" (bt_transport_text t) = negb (is_recognized (Byte.to_N t)).
Proof. by_all_bytes t. Qed.

Lemma text_length_check (t : tBT_TRANSPORT) :
  Nat.leb 10 (String.length (bt_transport_text t))
  && Nat.leb (String.length (bt_transport_text t)) 19 = true.
Proof. by_all_bytes t. Qed.

Lemma text_length_bounds (t : tBT_TRANSPORT) :
  10 <= String.length (bt_transport_text t) <= 19.
Proof.
  pose proof (text_length_check t) as H.
  apply andb_true_iff in H as [H1 H2].
  apply Nat.leb_le in H1. apply Nat.leb_le in H2. lia.
Qed.

Lemma is_recognized_spec (n : N) :
  is_recognized n = true <-> n = 0%N \/ n = 1%N \/ n = 2%N.
Proof.
  unfold is_recognized, BT_TRANSPORT_AUTO, BT_TRANSPORT_BR_EDR, BT_TRANSPORT_LE.
  rewrite !orb_true_iff, !N.eqb_eq. tauto.
Qed.

Lemma switch_lookup_recognized (n : N) :
  is_recognized n = false -> switch_lookup n switch_cases = None.
Proof.
  unfold is_recognized. intros H.
  apply orb_false_iff in H as [H H3]. apply orb_false_iff in H as [H1 H2].
  simpl. rewrite H1, H2, H3. reflexivity.
Qed.

Lemma switch_lookup_In (n : N) (s : string) (cs : list (N * string)) :
  switch_lookup n cs = Some s -> In (n, s) cs.
Proof.
  induction cs as [|[label txt] rest IH]; simpl; [discriminate|].
  destruct (N.eqb_spec n label) as [->|_].
  - intros [= ->]. left. reflexivity.
  - intros H. right. apply IH, H.
Qed.

(** * Claims *)

(** C1: the three recognized codes 0, 1 and 2 are rendered as the exact
    symbolic names BT_TRANSPORT_AUTO, BT_TRANSPORT_BR_EDR and BT_TRANSPORT_LE. *)
Theorem bt_transport_text_recognized :
  Byte.to_N Byte.x00 = BT_TRANSPORT_AUTO /\
  bt_transport_text Byte.x00 = "BT_TRANSPORT_AUTO" /\
  Byte.to_N Byte.x01 = BT_TRANSPORT_BR_EDR /\
  bt_transport_text Byte.x01 = "BT_TRANSPORT_BR_EDR" /\
  Byte.to_N Byte.x02 = BT_TRANSPORT_LE /\
  bt_transport_text Byte.x02 = "BT_TRANSPORT_LE".
Proof. repeat split. Qed.

(** C2: every code outside {0, 1, 2} is rendered as UNKNOWN[<value>], where
    <value> is the canonical decimal numeral of the code. *)
Theorem bt_transport_text_unknown (t : tBT_TRANSPORT) :
  is_recognized (Byte.to_N t) = false ->
  bt_transport_text t = "UNKNOWN[" ++ to_string (Byte.to_N t) ++ "]" /\
  is_decimal_of (to_string (Byte.to_N t)) (Byte.to_N t) = true.
Proof.
  intros H. split.
  - unfold bt_transport_text. rewrite (switch_lookup_recognized _ H). reflexivity.
  - apply to_string_is_decimal.
Qed.

Lemma bt_transport_text_unknown_witness :
  (is_recognized (Byte.to_N Byte.x07) = false /\
   bt_transport_text Byte.x07 = "UNKNOWN[7]") /\
  (is_recognized (Byte.to_N Byte.xff) = false /\
   bt_transport_text Byte.xff = "UNKNOWN[255]").
Proof.
  split; split; [reflexivity| |reflexivity|].
  - destruct (bt_transport_text_unknown Byte.x07 eq_refl) as [H _].
    rewrite H. reflexivity.
  - destruct (bt_transport_text_unknown Byte.xff eq_refl) as [H _].
    rewrite H. reflexivity.
Defined.

(** C3: the function is total on all 256 codes: every code either hits one
    of the switch's cases, returning its text, or takes the default branch
    and returns the UNKNOWN[...] fallback; no code is left unhandled. *)
Theorem bt_transport_text_total (t : tBT_TRANSPORT) :
  exists s, bt_transport_text t = s /\
    ((is_recognized (Byte.to_N t) = true /\ In (Byte.to_N t, s) switch_cases) \/
     (is_recognized (Byte.to_N t) = false /\
      s = "UNKNOWN[" ++ to_string (Byte.to_N t) ++ "]")).
Proof.
  exists (bt_transport_text t). split; [reflexivity|].
  destruct (is_recognized (Byte.to_N t)) eqn:Hr.
  - left. split; [reflexivity|].
    unfold bt_transport_text.
    destruct (switch_lookup (Byte.to_N t) switch_cases) as [s|] eqn:Hs.
    + apply switch_lookup_In, Hs.
    + apply is_recognized_spec in Hr.
      destruct Hr as [Hr|[Hr|Hr]]; rewrite Hr in Hs; discriminate.
  - right. split; [reflexivity|]. apply bt_transport_text_unknown, Hr.
Qed.

(** C4: for every code the returned label is non-empty. *)
Theorem bt_transport_text_nonempty (t : tBT_TRANSPORT) :
  bt_transport_text t <> "".
Proof.
  intros H. pose proof (text_length_bounds t) as Hl.
  rewrite H in Hl. simpl in Hl. lia.
Qed.

(** C5: determinism: two calls reading the same code produce the same
    string, whatever else the caller's memory holds. *)
Theorem bt_transport_text_deterministic (a1 a2 : N) (m1 m2 : memory) :
  m1 a1 = m2 a2 ->
  fst (call_bt_transport_text a1 m1) = fst (call_bt_transport_text a2 m2).
Proof. intros H. simpl. rewrite H. reflexivity. Qed.

Lemma bt_transport_text_deterministic_witness :
  (fun _ : N => Byte.x05) 0%N = (fun a : N => if N.eqb a 4 then Byte.x05 else Byte.x09) 4%N /\
  fst (call_bt_transport_text 0 (fun _ => Byte.x05)) =
  fst (call_bt_transport_text 4 (fun a => if N.eqb a 4 then Byte.x05 else Byte.x09)).
Proof.
  split; [reflexivity|].
  apply bt_transport_text_deterministic. reflexivity.
Defined.

(** C6: the header defines exactly three transport macros, AUTO = 0,
    BR_EDR = 1 and LE = 2. *)
Theorem transport_constants_values :
  transport_macros =
    [ ("BT_TRANSPORT_AUTO", 0%N); ("BT_TRANSPORT_BR_EDR", 1%N); ("BT_TRANSPORT_LE", 2%N) ] /\
  List.length transport_macros = 3 /\ NoDup (map snd transport_macros).
Proof.
  split; [reflexivity|]. split; [reflexivity|].
  simpl. repeat constructor; simpl; intuition discriminate.
Qed.

(** C7: a call leaves the caller's memory, and so the referenced input
    code, unchanged; only the returned string is produced. *)
Theorem bt_transport_text_frame (addr : N) (m : memory) :
  snd (call_bt_transport_text addr m) = m /\
  snd (call_bt_transport_text addr m) addr = m addr /\
  fst (call_bt_transport_text addr m) = bt_transport_text (m addr).
Proof. repeat split. Qed.

(** C8: distinct codes give distinct labels. *)
Theorem bt_transport_text_injective (a b : tBT_TRANSPORT) :
  bt_transport_text a = bt_transport_text b -> a = b.
Proof.
  intros H.
  assert (Hn : Byte.to_N a = Byte.to_N b).
  { pose proof (text_parse_inverse a) as Ha. pose proof (text_parse_inverse b) as Hb.
    rewrite H in Ha. rewrite Ha in Hb. injection Hb. auto. }
  pose proof (Byte.of_to_N a) as Ha. pose proof (Byte.of_to_N b) as Hb.
  rewrite Hn in Ha. rewrite Ha in Hb. injection Hb. auto.
Qed.

Lemma bt_transport_text_injective_witness :
  bt_transport_text Byte.x03 = bt_transport_text Byte.x03 /\ Byte.x03 = Byte.x03.
Proof.
  split; [reflexivity|]. apply bt_transport_text_injective. reflexivity.
Defined.

(** C9: the label starts with UNKNOWN[ exactly when the code is not one of
    0, 1, 2. *)
Theorem bt_transport_text_unknown_prefix_iff (t : tBT_TRANSPORT) :
  String.prefix "UNKNOWN[" (bt_transport_text t) = true <->
  ~ (Byte.to_N t = 0%N \/ Byte.to_N t = 1%N \/ Byte.to_N t = 2%N).
Proof.
  rewrite text_prefix_unknown, <- is_recognized_spec.
  destruct (is_recognized (Byte.to_N t)); simpl; split.
  - discriminate.
  - intros H. exfalso. apply H. reflexivity.
  - intros _ H. discriminate.
  - reflexivity.
Qed.

(** C10: every label has between 10 and 19 characters. *)
Theorem bt_transport_text_length (t : tBT_TRANSPORT) :
  10 <= String.length (bt_transport_text t) <= 19.
Proof. exact (text_length_bounds t). Qed.

(** * std::to_string on arbitrary naturals *)

Section ToString.

Local Open Scope N_scope.

Lemma string_append_assoc (s1 s2 s3 : string) :
  ((s1 ++ s2) ++ s3)%string = (s1 ++ (s2 ++ s3))%string.
Proof. induction s1 as [|c s1 IH]; simpl; [reflexivity|]. rewrite IH. reflexivity. Qed.

Lemma string_length_append (s1 s2 : string) :
  String.length (s1 ++ s2) = (String.length s1 + String.length s2)%nat.
Proof. induction s1 as [|c s1 IH]; simpl; [reflexivity|]. rewrite IH. reflexivity. Qed.

Lemma to_string_aux_acc (f : nat) (n : N) (acc : string) :
  to_string_aux f n acc = (to_string_aux f n "" ++ acc)%string.
Proof.
  revert n acc; induction f as [|f IH]; intros n acc; cbn [to_string_aux]; [reflexivity|].
  destruct (n / 10) as [|q]; [reflexivity|].
  rewrite (IH _ (String _ acc)), (IH _ (String _ "")), string_append_assoc.
  reflexivity.
Qed.

Lemma to_string_aux_step (f : nat) (n : N) :
  to_string_aux (S f) n "" =
  ((if N.eqb (n / 10) 0 then "" else to_string_aux f (n / 10) "")
     ++ String (digit_char (n mod 10)) "")%string.
Proof.
  cbn [to_string_aux]. destruct (n / 10) as [|q]; simpl; [reflexivity|].
  apply to_string_aux_acc.
Qed.

Lemma decimal_value_aux_append (s1 s2 : string) (a : N) :
  decimal_value_aux (s1 ++ s2) a = decimal_value_aux s2 (decimal_value_aux s1 a).
Proof. revert a; induction s1 as [|c s1 IH]; intros a; simpl; auto. Qed.

Lemma all_digits_append (s1 s2 : string) :
  all_digits (s1 ++ s2) = all_digits s1 && all_digits s2.
Proof. induction s1 as [|c s1 IH]; simpl; [reflexivity|]. rewrite IH, andb_assoc. reflexivity. Qed.

Lemma digit_char_value (d : N) :
  d < 10 -> N_of_ascii (digit_char d) = 48 + d.
Proof. intros H. unfold digit_char. apply N_ascii_embedding. lia. Qed.

Lemma pow10_succ (f : nat) : 10 ^ N.of_nat (S f) = 10 * 10 ^ N.of_nat f.
Proof. rewrite Nat2N.inj_succ, N.pow_succ_r'. reflexivity. Qed.

Lemma div10_facts (n : N) : n = 10 * (n / 10) + n mod 10 /\ n mod 10 < 10.
Proof. split; [apply N.div_mod; discriminate | apply N.mod_lt; discriminate]. Qed.

(** [lia] does not reason about [N.div] here: name quotient and remainder. *)
Ltac div10_atoms n :=
  let q := fresh "q" in let m := fresh "m" in
  set (q := n / 10) in *; set (m := n mod 10) in *; clearbody q m.

Lemma to_string_aux_value (f : nat) (n : N) :
  n < 10 ^ N.of_nat f -> decimal_value_aux (to_string_aux f n "") 0 = n.
Proof.
  revert n; induction f as [|f IH]; intros n Hn.
  - simpl in *. lia.
  - rewrite to_string_aux_step, decimal_value_aux_append, pow10_succ in *.
    destruct (div10_facts n) as [Hdm Hm].
    cbn [decimal_value_aux]. rewrite digit_char_value by exact Hm.
    destruct (N.eqb_spec (n / 10) 0) as [H0|H0]; cbv beta iota.
    + cbn [decimal_value_aux]. div10_atoms n. lia.
    + rewrite IH; div10_atoms n; lia.
Qed.

Lemma to_string_aux_digits (f : nat) (n : N) :
  all_digits (to_string_aux f n "") = true.
Proof.
  revert n; induction f as [|f IH]; intros n; [reflexivity|].
  rewrite to_string_aux_step, all_digits_append.
  destruct (div10_facts n) as [_ Hm].
  apply andb_true_iff; split.
  - destruct (N.eqb (n / 10) 0); [reflexivity | apply IH].
  - simpl. rewrite andb_true_r. unfold is_digit. rewrite digit_char_value by exact Hm.
    apply andb_true_iff; split; [apply N.leb_le | apply N.ltb_lt]; div10_atoms n; lia.
Qed.

(** For a positive [n] with enough fuel, the numeral has [k] digits with
    [10^(k-1) <= n < 10^k] and a non-zero leading digit. *)
Lemma to_string_aux_shape (f : nat) (n : N) :
  0 < n -> n < 10 ^ N.of_nat f ->
  let s := to_string_aux f n "" in
  10 ^ N.of_nat (String.length s) <= 10 * n < 10 * 10 ^ N.of_nat (String.length s) /\
  exists c r, s = String c r /\ c <> "0"%char.
Proof.
  revert n; induction f as [|f IH]; intros n Hpos Hn; cbv zeta.
  - simpl in Hn. lia.
  - rewrite to_string_aux_step. rewrite pow10_succ in Hn.
    destruct (div10_facts n) as [Hdm Hm].
    destruct (N.eqb_spec (n / 10) 0) as [H0|H0]; cbv beta iota.
    + simpl String.length. split; [div10_atoms n; lia|].
      exists (digit_char (n mod 10)), ""%string. split; [reflexivity|].
      intros Hc. apply (f_equal N_of_ascii) in Hc.
      rewrite digit_char_value in Hc by exact Hm. change (N_of_ascii "0"%char) with 48 in Hc. div10_atoms n. lia.
    + destruct (IH (n / 10)) as [[Hlo Hhi] [c [r [Hs Hc]]]];
        [div10_atoms n; lia | div10_atoms n; lia |].
      rewrite string_length_append. simpl String.length.
      rewrite Nat.add_1_r, pow10_succ.
      split; [div10_atoms n; lia|].
      rewrite Hs. exists c, (r ++ String (digit_char (n mod 10)) "")%string.
      split; [reflexivity | exact Hc].
Qed.

Lemma size_nat_bound (p : positive) : Npos p < 2 ^ N.of_nat (Pos.size_nat p).
Proof.
  induction p as [p IHp|p IHp|]; cbn [Pos.size_nat];
    rewrite ?Nat2N.inj_succ, ?N.pow_succ_r'.
  - change (N.pos p~1) with (2 * N.pos p + 1). lia.
  - change (N.pos p~0) with (2 * N.pos p). lia.
  - reflexivity.
Qed.

Lemma to_string_fuel (n : N) : n < 10 ^ N.of_nat (S (N.size_nat n)).
Proof.
  rewrite pow10_succ. destruct n as [|p]; [simpl; lia|].
  pose proof (size_nat_bound p) as H. simpl N.size_nat.
  pose proof (N.pow_le_mono_l 2 10 (N.of_nat (Pos.size_nat p))) as Hle.
  assert (0 < 10 ^ N.of_nat (Pos.size_nat p)) by (apply N.neq_0_lt_0, N.pow_nonzero; discriminate).
  lia.
Qed.

End ToString.

(** * Further properties of the code *)

(** std::to_string yields, for every natural, its canonical decimal
    numeral: digits only, of the right value, no leading zero. *)
Theorem to_string_canonical (n : N) : is_decimal_of (to_string n) n = true.
Proof.
  destruct n as [|p]; [reflexivity|].
  pose proof (to_string_fuel (N.pos p)) as Hf.
  pose proof (to_string_aux_value _ _ Hf) as Hv.
  pose proof (to_string_aux_digits (S (N.size_nat (N.pos p))) (N.pos p)) as Hd.
  destruct (to_string_aux_shape _ (N.pos p) ltac:(lia) Hf) as [_ [c [r [Hs Hc]]]].
  unfold to_string. rewrite Hs in *. unfold is_decimal_of.
  rewrite Hd. unfold decimal_value. rewrite Hv, N.eqb_refl. simpl.
  destruct (Ascii.eqb_spec c "0"%char) as [E|_]; [contradiction | reflexivity].
Qed.

(** std::to_string is injective: distinct values give distinct numerals. *)
Theorem to_string_injective (m n : N) : to_string m = to_string n -> m = n.
Proof.
  intros H.
  rewrite <- (to_string_aux_value _ _ (to_string_fuel m)).
  rewrite <- (to_string_aux_value _ _ (to_string_fuel n)).
  fold (to_string m) (to_string n). rewrite H. reflexivity.
Qed.

Lemma to_string_injective_witness :
  to_string 200 = to_string 200 /\ (200 = 200)%N.
Proof. split; [reflexivity | apply to_string_injective; reflexivity]. Defined.

(** A positive value [n] is printed with exactly k digits, where
    10^(k-1) <= n < 10^k. *)
Theorem to_string_digit_count (n : N) :
  (0 < n)%N ->
  (10 ^ N.of_nat (String.length (to_string n)) <= 10 * n <
   10 * 10 ^ N.of_nat (String.length (to_string n)))%N.
Proof.
  intros Hpos. exact (proj1 (to_string_aux_shape _ n Hpos (to_string_fuel n))).
Qed.

Lemma to_string_digit_count_witness :
  (0 < 255)%N /\
  (10 ^ N.of_nat (String.length (to_string 255)) <= 10 * 255 <
   10 * 10 ^ N.of_nat (String.length (to_string 255)))%N.
Proof. split; [reflexivity | apply to_string_digit_count; reflexivity]. Defined.

(** For an unrecognized code the fallback label has 10 characters for a
    one-digit code, 11 for a two-digit code and 12 for a three-digit code. *)
Theorem bt_transport_text_unknown_length (t : tBT_TRANSPORT) :
  is_recognized (Byte.to_N t) = false ->
  String.length (bt_transport_text t) =
    (if N.ltb (Byte.to_N t) 10 then 10
     else if N.ltb (Byte.to_N t) 100 then 11 else 12).
Proof. destruct t; vm_compute; intros H; (reflexivity || discriminate H). Qed.

Lemma bt_transport_text_unknown_length_witness :
  is_recognized (Byte.to_N Byte.x63) = false /\
  String.length (bt_transport_text Byte.x63) = 11.
Proof.
  split; [reflexivity|].
  exact (bt_transport_text_unknown_length Byte.x63 eq_refl).
Defined.

(** The label starts with BT_TRANSPORT_ exactly for the recognized codes. *)
Theorem bt_transport_text_name_prefix (t : tBT_TRANSPORT) :
  String.prefix "BT_TRANSPORT_" (bt_transport_text t) = is_recognized (Byte.to_N t).
Proof. by_all_bytes t. Qed.

(** Stringification in CASE_RETURN_TEXT: for every macro the header defines,
    the label of its value is the macro's own spelling. *)
Theorem bt_transport_text_macro_names (name : string) (v : N) :
  In (name, v) transport_macros ->
  exists t, Byte.of_N v = Some t /\ bt_transport_text t = name.
Proof.
  simpl. intros [H|[H|[H|[]]]]; injection H as <- <-; eexists; split; reflexivity.
Qed.

Lemma bt_transport_text_macro_names_witness :
  In ("BT_TRANSPORT_LE", BT_TRANSPORT_LE) transport_macros /\
  exists t, Byte.of_N BT_TRANSPORT_LE = Some t /\ bt_transport_text t = "BT_TRANSPORT_LE".
Proof.
  assert (H : In ("BT_TRANSPORT_LE", BT_TRANSPORT_LE) transport_macros)
    by (simpl; auto).
  split; [exact H | exact (bt_transport_text_macro_names _ _ H)].
Defined.
